(** * Bridge messages of the go-sdk: types/msg/msg-bridge.go

    A shallow embedding of the smart-chain address codec, of the two
    signable bridge messages (BindMsg, TransferOutMsg) and of the claim
    record TransferInClaim, together with the properties their
    specification states.

    Conventions of the embedding:
    - a Go [string] is a Stdlib [string] (a sequence of 8-bit characters),
      a Go [[]byte] is a [list byte];
    - a Go [int], [int64] or [int8] is a [Z]; the code performs no
      arithmetic on the sized integers, it only compares them with 0;
    - the array type [[20]byte] is a [list byte] of length 20, see
      [SmartChainAddress.wf]; every operation is shown to keep that length;
    - a run-time panic (a slice expression out of range, an explicit
      [panic]) is the result [None] of an [option];
    - a Go [error] result is an [option error], [None] being [nil]. *)

From Stdlib Require Import ZArith NArith Lia DecimalString DecimalZ DecimalPos.
From Stdlib.Strings Require Import Ascii String Byte.
From stdpp Require Import base tactics option list.

Local Open Scope Z_scope.

(** ** Go built-ins used by the file *)

Section GoSlices.
Context {A : Type}.

(** [len(l)], a Go [int]. *)
Definition len (l : list A) : Z := Z.of_nat (length l).

(** The slice expression [l[lo:]]; it panics unless [0 <= lo <= len(l)]. *)
Definition slice_from (l : list A) (lo : Z) : option (list A) :=
  if decide (0 <= lo <= len l) then Some (drop (Z.to_nat lo) l) else None.

(** The slice expression [l[lo:hi]]; it panics unless
    [0 <= lo <= hi <= len(l)]. *)
Definition slice (l : list A) (lo hi : Z) : option (list A) :=
  if decide (0 <= lo <= hi /\ hi <= len l)
  then Some (take (Z.to_nat (hi - lo)) (drop (Z.to_nat lo) l))
  else None.

(** [copy(dst, src)] seen from [dst]: the first [min(len(dst), len(src))]
    elements of [dst] are overwritten with those of [src], the remaining
    elements of [dst] stay as they are. *)
Definition copy (dst src : list A) : list A :=
  take (length dst) src ++ drop (length src) dst.
End GoSlices.

(** Errors that the functions of the file return. *)
Inductive error : Type :=
| ErrHexSyntax                (* reported by the hex decoder *)
| Errorf (msg : string).      (* built by fmt.Errorf *)

(** [%d] of fmt for a Go integer. *)
Definition fmt_d (z : Z) : string := NilZero.string_of_int (Z.to_int z).

(** The one-character string made of a double quote. *)
Definition dquote : string := String (ascii_of_nat 34) EmptyString.

(** ** The hexadecimal codec *)

Module Hex.

(** The digit of a value below 16, in lower case. *)
Definition digit (n : N) : ascii :=
  if (n <? 10)%N then ascii_of_N (48 + n) else ascii_of_N (87 + n).

(** The value of a lower-case hexadecimal digit. *)
Definition value (c : ascii) : option N :=
  let n := N_of_ascii c in
  if ((48 <=? n) && (n <=? 57))%N then Some (n - 48)%N
  else if ((97 <=? n) && (n <=? 102))%N then Some (n - 87)%N
  else None.

Fixpoint encode (bs : list byte) : string :=
  match bs with
  | [] => EmptyString
  | b :: rest =>
      String (digit (Byte.to_N b / 16)) (String (digit (Byte.to_N b mod 16)) (encode rest))
  end.

Fixpoint decode (s : string) : option (list byte) :=
  match s with
  | EmptyString => Some []
  | String _ EmptyString => None
  | String c1 (String c2 rest) =>
      hi ← value c1;
      lo ← value c2;
      b ← Byte.of_N (16 * hi + lo);
      bs ← decode rest;
      Some (b :: bs)
  end.

(** The characters that count as lower-case hexadecimal digits. *)
Definition lower_hex (c : ascii) : Prop :=
  In c (list_ascii_of_string "0123456789abcdef").

(** Removes a leading [0x] when there is one. *)
Definition strip_prefix (s : string) : string :=
  match s with
  | String c1 (String c2 rest) =>
      if (Ascii.eqb c1 "0" && Ascii.eqb c2 "x")%bool then rest else s
  | _ => s
  end.

End Hex.

(** Modelled from the spec: [HexDecode], the decoder of the textual form of
    an address, is declared in another file of package msg, which this
    development does not cover. The specification gives the textual form as
    lower-case hexadecimal, optionally prefixed (read here as the prefix
    [0x]), two digits per byte, and says that a decoding failure
    contributes no byte to the address. The Go result is a pair: the
    decoded bytes and an error. *)
Definition HexDecode (input : string) : list byte * option error :=
  match Hex.decode (Hex.strip_prefix input) with
  | Some bs => (bs, None)
  | None => ([], Some ErrHexSyntax)
  end.

(** Modelled from the spec: [HexAddress], the textual form of the raw bytes
    of an address, is declared in another file of package msg, which this
    development does not cover. The specification gives it as total and as the
    lower-case hexadecimal digits of the bytes, 40 characters for the 20
    bytes of an address. *)
Definition HexAddress (a : list byte) : string := Hex.encode a.

(** ** SmartChainAddress *)

Module SmartChainAddress.

(** [type SmartChainAddress [20]byte] *)
Definition t : Type := list byte.

(** [len(addr)], a constant of the array type. *)
Definition size : Z := 20.

Definition wf (addr : t) : Prop := length addr = 20%nat.

(** [var address SmartChainAddress]: the zero value of the array. *)
Definition zero : t := replicate 20 x00.

(** [func (addr *SmartChainAddress) SetBytes(b []byte)]; the result is
    the array after the call. *)
Definition SetBytes (addr : t) (b : list byte) : option t :=
  b ← (if decide (len b > size) then slice_from b (len b - 20) else Some b);
  dst ← slice_from addr (20 - len b);
  Some (take (Z.to_nat (20 - len b)) addr ++ copy dst b).

(** [big.Int.SetBytes]: the bytes read as a big-endian unsigned integer. *)
Definition big_SetBytes (buf : list byte) : Z :=
  fold_left (fun acc b => acc * 256 + Z.of_N (Byte.to_N b)) buf 0.

(** [big.Int.Cmp]: -1, 0 or +1. *)
Definition big_Cmp (x y : Z) : Z :=
  match x ?= y with Lt => -1 | Eq => 0 | Gt => 1 end.

(** [func (addr SmartChainAddress) IsEmpty() bool] *)
Definition IsEmpty (addr : t) : bool :=
  let addrValue := big_SetBytes addr in
  big_Cmp addrValue 0 =? 0.

(** [func (addr SmartChainAddress) String() string] *)
Definition String (addr : t) : string := HexAddress addr.

(** [func (addr SmartChainAddress) MarshalJSON() ([]byte, error)] *)
Definition MarshalJSON (addr : t) : list byte * option error :=
  (list_byte_of_string (dquote ++ String addr ++ dquote)%string, None).

(** [func (addr *SmartChainAddress) UnmarshalJSON(input []byte) error];
    the result is the array after the call and the error returned. *)
Definition UnmarshalJSON (addr : t) (input : list byte) : option (t * option error) :=
  content ← slice input 1 (len input - 1);
  let '(hexBytes, err) := HexDecode (string_of_list_byte content) in
  match err with
  | Some e => Some (addr, Some e)
  | None => addr' ← SetBytes addr hexBytes; Some (addr', None)
  end.

End SmartChainAddress.

(** [func NewSmartChainAddress(addr string) SmartChainAddress] *)
Definition NewSmartChainAddress (addr : string) : option SmartChainAddress.t :=
  let '(hexBytes, _) := HexDecode addr in
  let address := SmartChainAddress.zero in
  SmartChainAddress.SetBytes address hexBytes.

(** ** Types of package sdk and the JSON encoder *)

(** Modelled from the spec: [sdk.AccAddress], the address of an account of
    the native chain, is declared in package common/types, which this
    development does not cover. The code takes its [len], so it is a
    sequence of bytes. *)
Definition AccAddress : Type := list byte.

Module Coin.
(** Modelled from the spec: [sdk.Coin] is declared in package
    common/types, which this development does not cover. The
    specification calls it a coin amount of the native chain and has
    [IsPositive] hold when that amount is strictly positive. *)
Record t : Type := { Denom : string; Amount : Z }.

(** Modelled from the spec: [IsPositive], declared with [sdk.Coin]; the
    amount is strictly positive. *)
Definition IsPositive (coin : t) : bool := 0 <? Amount coin.
End Coin.

(** What [json.Marshal] writes for the values whose encoders are outside
    the file: a Go string (quoted and escaped by encoding/json), an
    [sdk.AccAddress] and an [sdk.Coin] (both through package sdk). An
    encoder that reports an error gives [None]. *)
Record JSONEncoders : Type := {
  json_string : string -> string;
  json_AccAddress : AccAddress -> option string;
  json_Coin : Coin.t -> option string
}.

Module JSON.
(** An integer field: its decimal digits. *)
Definition int (z : Z) : string := fmt_d z.

(** A field whose type implements json.Marshaler: the bytes its
    MarshalJSON returns, or the error it reports. encoding/json checks and
    compacts these bytes; a quoted run of hexadecimal digits, which is what
    [SmartChainAddress.MarshalJSON] returns, passes unchanged. *)
Definition marshaler (r : list byte * option error) : option string :=
  match r with
  | (b, None) => Some (string_of_list_byte b)
  | (_, Some _) => None
  end.

(** One member of an object: the key of the field tag, a colon, the
    value. *)
Definition member (key value : string) : string :=
  (dquote ++ key ++ dquote ++ ":" ++ value)%string.

Fixpoint join (members : list string) : string :=
  match members with
  | [] => EmptyString
  | [m] => m
  | m :: rest => (m ++ "," ++ join rest)%string
  end.

(** A struct: its members in the order of the field declarations. *)
Definition object (members : list string) : string :=
  ("{" ++ join members ++ "}")%string.
End JSON.

(** ** BindMsg *)

Module BindMsg.

Record t : Type := {
  From : AccAddress;
  Symbol : string;
  Amount : Z;
  ContractAddress : SmartChainAddress.t;
  ContractDecimals : Z;
  ExpireTime : Z
}.

(** [func NewBindMsg(from, symbol, amount, contractAddress,
    contractDecimals, expireTime) BindMsg]; the literal of the source
    names [Amount] before [Symbol]. *)
Definition NewBindMsg (from : AccAddress) (symbol : string) (amount : Z)
    (contractAddress : SmartChainAddress.t) (contractDecimals expireTime : Z) : t :=
  {| From := from;
     Amount := amount;
     Symbol := symbol;
     ContractAddress := contractAddress;
     ContractDecimals := contractDecimals;
     ExpireTime := expireTime |}.

Definition Route (msg : t) : string := "bridge".
Definition Type_ (msg : t) : string := "crossBind".
Definition GetSigners (msg : t) : list AccAddress := [From msg].
Definition GetInvolvedAddresses (msg : t) : list AccAddress := GetSigners msg.

(** [func (msg BindMsg) ValidateBasic() error]; [AddrLen] is the constant
    [sdk.AddrLen], declared outside the file. *)
Definition ValidateBasic (AddrLen : Z) (msg : t) : option error :=
  if decide (len (From msg) <> AddrLen) then
    Some (Errorf ("address length should be " ++ fmt_d AddrLen))
  else if decide (Z.of_nat (String.length (Symbol msg)) = 0) then
    Some (Errorf "symbol should not be empty")
  else if decide (Amount msg <= 0) then
    Some (Errorf "amount should be larger than 0")
  else if SmartChainAddress.IsEmpty (ContractAddress msg) then
    Some (Errorf "contract address should not be empty")
  else if decide (ContractDecimals msg < 0) then
    Some (Errorf "decimal should be no less than 0")
  else if decide (ExpireTime msg <= 0) then
    Some (Errorf "expire time should be larger than 0")
  else None.

(** [json.Marshal(msg)]: the fields in the order of their declaration,
    under the keys of their tags. *)
Definition json_Marshal (enc : JSONEncoders) (msg : t) : option (list byte) :=
  from ← json_AccAddress enc (From msg);
  contract ← JSON.marshaler (SmartChainAddress.MarshalJSON (ContractAddress msg));
  Some (list_byte_of_string (JSON.object [
    JSON.member "from" from;
    JSON.member "symbol" (json_string enc (Symbol msg));
    JSON.member "amount" (JSON.int (Amount msg));
    JSON.member "contract_address" contract;
    JSON.member "contract_decimals" (JSON.int (ContractDecimals msg));
    JSON.member "expire_time" (JSON.int (ExpireTime msg)) ])).

(** [func (msg BindMsg) GetSignBytes() []byte]; [None] is the panic on
    an error of [json.Marshal]. *)
Definition GetSignBytes (enc : JSONEncoders) (msg : t) : option (list byte) :=
  match json_Marshal enc msg with
  | Some b => Some b
  | None => None
  end.

(** Construction field by field: the zero value of the struct, then one
    assignment per populated field, as a composite literal or a sequence
    of [msg.F = v] statements performs them. *)
Inductive field : Type :=
| FFrom | FSymbol | FAmount | FContractAddress | FContractDecimals | FExpireTime.

Inductive assignment : Type :=
| SetFrom (v : AccAddress)
| SetSymbol (v : string)
| SetAmount (v : Z)
| SetContractAddress (v : SmartChainAddress.t)
| SetContractDecimals (v : Z)
| SetExpireTime (v : Z).

Definition target (a : assignment) : field :=
  match a with
  | SetFrom _ => FFrom
  | SetSymbol _ => FSymbol
  | SetAmount _ => FAmount
  | SetContractAddress _ => FContractAddress
  | SetContractDecimals _ => FContractDecimals
  | SetExpireTime _ => FExpireTime
  end.

Definition assign (msg : t) (a : assignment) : t :=
  match a with
  | SetFrom v =>
      {| From := v; Symbol := Symbol msg; Amount := Amount msg;
         ContractAddress := ContractAddress msg;
         ContractDecimals := ContractDecimals msg; ExpireTime := ExpireTime msg |}
  | SetSymbol v =>
      {| From := From msg; Symbol := v; Amount := Amount msg;
         ContractAddress := ContractAddress msg;
         ContractDecimals := ContractDecimals msg; ExpireTime := ExpireTime msg |}
  | SetAmount v =>
      {| From := From msg; Symbol := Symbol msg; Amount := v;
         ContractAddress := ContractAddress msg;
         ContractDecimals := ContractDecimals msg; ExpireTime := ExpireTime msg |}
  | SetContractAddress v =>
      {| From := From msg; Symbol := Symbol msg; Amount := Amount msg;
         ContractAddress := v;
         ContractDecimals := ContractDecimals msg; ExpireTime := ExpireTime msg |}
  | SetContractDecimals v =>
      {| From := From msg; Symbol := Symbol msg; Amount := Amount msg;
         ContractAddress := ContractAddress msg;
         ContractDecimals := v; ExpireTime := ExpireTime msg |}
  | SetExpireTime v =>
      {| From := From msg; Symbol := Symbol msg; Amount := Amount msg;
         ContractAddress := ContractAddress msg;
         ContractDecimals := ContractDecimals msg; ExpireTime := v |}
  end.

Definition zero : t :=
  {| From := []; Symbol := EmptyString; Amount := 0;
     ContractAddress := SmartChainAddress.zero;
     ContractDecimals := 0; ExpireTime := 0 |}.

Definition populate (l : list assignment) : t := fold_left assign l zero.

End BindMsg.

(** ** TransferOutMsg *)

Module TransferOutMsg.

Record t : Type := {
  From : AccAddress;
  To : SmartChainAddress.t;
  Amount : Coin.t;
  ExpireTime : Z
}.

(** [func NewTransferOutMsg(from, to, amount, expireTime) TransferOutMsg] *)
Definition NewTransferOutMsg (from : AccAddress) (to : SmartChainAddress.t)
    (amount : Coin.t) (expireTime : Z) : t :=
  {| From := from; To := to; Amount := amount; ExpireTime := expireTime |}.

Definition Route (msg : t) : string := "bridge".
Definition Type_ (msg : t) : string := "crossTransferOut".
Definition GetSigners (msg : t) : list AccAddress := [From msg].
Definition GetInvolvedAddresses (msg : t) : list AccAddress := GetSigners msg.

(** [func (msg TransferOutMsg) ValidateBasic() error] *)
Definition ValidateBasic (AddrLen : Z) (msg : t) : option error :=
  if decide (len (From msg) <> AddrLen) then
    Some (Errorf ("address length should be " ++ fmt_d AddrLen))
  else if SmartChainAddress.IsEmpty (To msg) then
    Some (Errorf "to address should not be empty")
  else if negb (Coin.IsPositive (Amount msg)) then
    Some (Errorf "amount should be positive")
  else if decide (ExpireTime msg <= 0) then
    Some (Errorf "expire time should be larger than 0")
  else None.

(** [json.Marshal(msg)] *)
Definition json_Marshal (enc : JSONEncoders) (msg : t) : option (list byte) :=
  from ← json_AccAddress enc (From msg);
  to ← JSON.marshaler (SmartChainAddress.MarshalJSON (To msg));
  amount ← json_Coin enc (Amount msg);
  Some (list_byte_of_string (JSON.object [
    JSON.member "from" from;
    JSON.member "to" to;
    JSON.member "amount" amount;
    JSON.member "expire_time" (JSON.int (ExpireTime msg)) ])).

(** [func (msg TransferOutMsg) GetSignBytes() []byte]; [None] is the
    panic on an error of [json.Marshal]. *)
Definition GetSignBytes (enc : JSONEncoders) (msg : t) : option (list byte) :=
  match json_Marshal enc msg with
  | Some b => Some b
  | None => None
  end.

Inductive field : Type := FFrom | FTo | FAmount | FExpireTime.

Inductive assignment : Type :=
| SetFrom (v : AccAddress)
| SetTo (v : SmartChainAddress.t)
| SetAmount (v : Coin.t)
| SetExpireTime (v : Z).

Definition target (a : assignment) : field :=
  match a with
  | SetFrom _ => FFrom
  | SetTo _ => FTo
  | SetAmount _ => FAmount
  | SetExpireTime _ => FExpireTime
  end.

Definition assign (msg : t) (a : assignment) : t :=
  match a with
  | SetFrom v =>
      {| From := v; To := To msg; Amount := Amount msg; ExpireTime := ExpireTime msg |}
  | SetTo v =>
      {| From := From msg; To := v; Amount := Amount msg; ExpireTime := ExpireTime msg |}
  | SetAmount v =>
      {| From := From msg; To := To msg; Amount := v; ExpireTime := ExpireTime msg |}
  | SetExpireTime v =>
      {| From := From msg; To := To msg; Amount := Amount msg; ExpireTime := v |}
  end.

Definition zero : t :=
  {| From := []; To := SmartChainAddress.zero;
     Amount := {| Coin.Denom := EmptyString; Coin.Amount := 0 |};
     ExpireTime := 0 |}.

Definition populate (l : list assignment) : t := fold_left assign l zero.

End TransferOutMsg.

(** ** TransferInClaim *)

Module TransferInClaim.

Record t : Type := {
  ContractAddress : SmartChainAddress.t;
  RefundAddresses : list SmartChainAddress.t;
  ReceiverAddresses : list AccAddress;
  Amounts : list Z;
  Symbol : string;
  RelayFee : Coin.t;
  ExpireTime : Z
}.

End TransferInClaim.

(** ** Sample values, used by the examples *)

Module Sample.
(** Encoders in the shape of those of encoding/json and package sdk, for
    texts that need no escaping. *)
Definition encoders : JSONEncoders :=
  {| json_string := fun s => (dquote ++ s ++ dquote)%string;
     json_AccAddress := fun a => Some (dquote ++ Hex.encode a ++ dquote)%string;
     json_Coin := fun c =>
       Some (JSON.object [
         JSON.member "denom" (dquote ++ Coin.Denom c ++ dquote)%string;
         JSON.member "amount" (JSON.int (Coin.Amount c)) ]) |}.

Definition sender : AccAddress := replicate 20 x07.
Definition contract : SmartChainAddress.t := replicate 19 x00 ++ [x2a].
Definition ones : SmartChainAddress.t := replicate 20 x01.

Definition bind : BindMsg.t :=
  BindMsg.NewBindMsg sender "BNB" 100000000 contract 8 1597543193.

Definition transferOut : TransferOutMsg.t :=
  TransferOutMsg.NewTransferOutMsg sender contract
    {| Coin.Denom := "BNB"; Coin.Amount := 100000000 |} 1597543193.

(** A claim whose three sequences have different lengths. *)
Definition ragged : TransferInClaim.t :=
  {| TransferInClaim.ContractAddress := contract;
     TransferInClaim.RefundAddresses := [contract; ones];
     TransferInClaim.ReceiverAddresses := [sender];
     TransferInClaim.Amounts := [];
     TransferInClaim.Symbol := "BNB";
     TransferInClaim.RelayFee := {| Coin.Denom := "BNB"; Coin.Amount := 1 |};
     TransferInClaim.ExpireTime := 1597543193 |}.

(** A claim that describes two transfers. *)
Definition batch : TransferInClaim.t :=
  {| TransferInClaim.ContractAddress := contract;
     TransferInClaim.RefundAddresses := [contract; ones];
     TransferInClaim.ReceiverAddresses := [sender; sender];
     TransferInClaim.Amounts := [5; 7];
     TransferInClaim.Symbol := "BNB";
     TransferInClaim.RelayFee := {| Coin.Denom := "BNB"; Coin.Amount := 1 |};
     TransferInClaim.ExpireTime := 1597543193 |}.
End Sample.

(** * Properties *)

(** ** Slices and copy *)

Section GoSlicesFacts.
Context {A : Type}.
Implicit Types l dst src : list A.

Lemma slice_from_Some l (lo : Z) :
  0 <= lo <= len l -> slice_from l lo = Some (drop (Z.to_nat lo) l).
Proof. intros H. unfold slice_from. by rewrite decide_True. Qed.

Lemma slice_from_None l (lo : Z) :
  ~ (0 <= lo <= len l) -> slice_from l lo = None.
Proof. intros H. unfold slice_from. by rewrite decide_False. Qed.

Lemma slice_None_short l :
  len l < 2 -> slice l 1 (len l - 1) = None.
Proof. intros H. unfold slice. rewrite decide_False; [done | lia]. Qed.

Lemma slice_Some_long l :
  2 <= len l ->
  slice l 1 (len l - 1) = Some (take (length l - 2) (drop 1 l)).
Proof.
  intros H. unfold slice. rewrite decide_True by lia.
  unfold len in *. do 2 f_equal. lia.
Qed.

Lemma length_copy dst src : length (copy dst src) = length dst.
Proof. unfold copy. rewrite length_app, length_take, length_drop. lia. Qed.

Lemma copy_same_length dst src :
  length src = length dst -> copy dst src = src.
Proof.
  intros H. unfold copy.
  rewrite <- H, firstn_all, drop_ge by lia. apply app_nil_r.
Qed.
End GoSlicesFacts.

(** ** The hexadecimal codec *)

Module HexFacts.
Import Hex.

Lemma byte_digits (b : byte) :
  value (digit (Byte.to_N b / 16)) = Some (Byte.to_N b / 16)%N /\
  value (digit (Byte.to_N b mod 16)) = Some (Byte.to_N b mod 16)%N /\
  Byte.of_N (16 * (Byte.to_N b / 16) + Byte.to_N b mod 16) = Some b.
Proof. destruct b; vm_compute; auto. Qed.

Lemma low_digit_not_x (b : byte) :
  Ascii.eqb (digit (Byte.to_N b mod 16)) "x" = false.
Proof. destruct b; reflexivity. Qed.

Lemma digits_lower_hex (b : byte) :
  lower_hex (digit (Byte.to_N b / 16)) /\ lower_hex (digit (Byte.to_N b mod 16)).
Proof. destruct b; vm_compute; intuition. Qed.

Lemma decode_encode (bs : list byte) : decode (encode bs) = Some bs.
Proof.
  induction bs as [| b bs IH]; [reflexivity |].
  destruct (byte_digits b) as (Hhi & Hlo & Hb).
  cbn [encode decode]. rewrite Hhi, Hlo. cbn [mbind option_bind].
  rewrite Hb, IH. reflexivity.
Qed.

Lemma strip_prefix_encode (bs : list byte) : strip_prefix (encode bs) = encode bs.
Proof.
  destruct bs as [| b bs]; [reflexivity |].
  cbn [encode strip_prefix]. rewrite low_digit_not_x, andb_false_r. reflexivity.
Qed.

Lemma length_encode (bs : list byte) :
  String.length (encode bs) = (2 * length bs)%nat.
Proof. induction bs as [| b bs IH]; cbn [encode String.length length]; lia. Qed.

Lemma encode_lower_hex (bs : list byte) :
  Forall lower_hex (list_ascii_of_string (encode bs)).
Proof.
  induction bs as [| b bs IH]; cbn [encode list_ascii_of_string]; [constructor |].
  destruct (digits_lower_hex b). auto.
Qed.

(** Decoding what [HexAddress] wrote gives the bytes back, without error. *)
Lemma HexDecode_HexAddress (bs : list byte) : HexDecode (HexAddress bs) = (bs, None).
Proof.
  unfold HexDecode, HexAddress. by rewrite strip_prefix_encode, decode_encode.
Qed.

(** A decoding that fails returns no byte. *)
Lemma HexDecode_error (s : string) (bs : list byte) (e : error) :
  HexDecode s = (bs, Some e) -> bs = [].
Proof. unfold HexDecode. destruct (decode _); congruence. Qed.
End HexFacts.

(** ** SetBytes *)

Module SetBytesFacts.
Import SmartChainAddress.

Lemma wf_zero : wf zero.
Proof. reflexivity. Qed.

(** The array after [SetBytes], in one formula: the bytes of the receiver
    that [b] does not reach, then the last 20 bytes of [b]. The call
    never panics. *)
Lemma SetBytes_eq (addr : t) (b : list byte) :
  wf addr ->
  SetBytes addr b = Some (take (20 - length b) addr ++ drop (length b - 20) b).
Proof.
  unfold wf, SetBytes, size. intros Hwf.
  destruct (decide (len b > 20)) as [Hlong | Hshort]; unfold len in *.
  - rewrite slice_from_Some by (unfold len; lia). simpl.
    set (b' := drop _ b).
    assert (Hb' : length b' = 20%nat) by (subst b'; rewrite length_drop; lia).
    unfold len. rewrite Hb'.
    rewrite slice_from_Some by (unfold len; lia). simpl.
    rewrite copy_same_length by (rewrite ?length_drop; lia).
    replace (20 - length b)%nat with 0%nat by lia. simpl.
    subst b'. do 2 f_equal. lia.
  - simpl. rewrite slice_from_Some by (unfold len; lia). simpl.
    rewrite copy_same_length by (rewrite length_drop; lia).
    replace (length b - 20)%nat with 0%nat by lia. rewrite drop_0.
    do 3 f_equal. lia.
Qed.

Lemma SetBytes_wf (addr addr' : t) (b : list byte) :
  wf addr -> SetBytes addr b = Some addr' -> wf addr'.
Proof.
  intros Hwf. rewrite SetBytes_eq by done. intros [= <-].
  unfold wf in *. rewrite length_app, length_take, length_drop. lia.
Qed.


Lemma SetBytes_full (addr b : t) : wf addr -> wf b -> SetBytes addr b = Some b.
Proof.
  intros Hwf Hb. rewrite SetBytes_eq by done. unfold wf in Hb. by rewrite Hb.
Qed.

Lemma SetBytes_zero (b : list byte) :
  SetBytes zero b = Some (replicate (20 - length b) x00 ++ drop (length b - 20) b).
Proof.
  rewrite SetBytes_eq by apply wf_zero. unfold zero.
  rewrite take_replicate. do 3 f_equal. lia.
Qed.

End SetBytesFacts.

(** ** IsEmpty *)

Module IsEmptyFacts.
Import SmartChainAddress.

Lemma to_N_zero (b : byte) : Byte.to_N b = 0%N -> b = x00.
Proof.
  intros H. apply (f_equal Byte.of_N) in H. rewrite Byte.of_to_N in H.
  by injection H as <-.
Qed.

Lemma big_fold_nonneg (buf : list byte) (acc : Z) :
  0 <= acc ->
  0 <= fold_left (fun acc b => acc * 256 + Z.of_N (Byte.to_N b)) buf acc.
Proof.
  revert acc. induction buf as [| b buf IH]; intros acc Hacc; simpl; [done |].
  apply IH. lia.
Qed.

Lemma big_fold_zero (buf : list byte) (acc : Z) :
  0 <= acc ->
  fold_left (fun acc b => acc * 256 + Z.of_N (Byte.to_N b)) buf acc = 0 <->
  acc = 0 /\ Forall (fun b => b = x00) buf.
Proof.
  revert acc. induction buf as [| b buf IH]; intros acc Hacc; simpl.
  - intuition.
  - rewrite IH by lia. rewrite Forall_cons. split.
    + intros [H0 Hall]. assert (Byte.to_N b = 0%N) by lia.
      split; [lia |]. split; [by apply to_N_zero | done].
    + intros (-> & -> & Hall). split; [reflexivity | done].
Qed.

Lemma big_SetBytes_zero (buf : list byte) :
  big_SetBytes buf = 0 <-> Forall (fun b => b = x00) buf.
Proof. unfold big_SetBytes. rewrite big_fold_zero by lia. intuition. Qed.

(** [IsEmpty] decides that every byte is zero. *)
Lemma IsEmpty_Forall (addr : t) :
  IsEmpty addr = true <-> Forall (fun b => b = x00) addr.
Proof.
  unfold IsEmpty, big_Cmp. rewrite <- big_SetBytes_zero.
  destruct (Z.compare_spec (big_SetBytes addr) 0) as [H | H | H];
    simpl; split; intros; try done; lia.
Qed.

Lemma Forall_zero_replicate (addr : t) :
  Forall (fun b => b = x00) addr <-> addr = replicate (length addr) x00.
Proof.
  split.
  - induction 1 as [| b l -> _ IH]; simpl; [done | by f_equal].
  - intros ->. apply Forall_replicate. reflexivity.
Qed.

Lemma IsEmpty_zero (addr : t) : wf addr -> IsEmpty addr = true <-> addr = zero.
Proof.
  intros Hwf. rewrite IsEmpty_Forall, Forall_zero_replicate.
  unfold wf in Hwf. by rewrite Hwf.
Qed.
End IsEmptyFacts.

(** ** Construction order of a struct *)

Section Populate.
Context {M Asg F : Type} (assign : M -> Asg -> M) (target : Asg -> F).
Hypothesis assign_comm : forall m a b,
  target a <> target b -> assign (assign m a) b = assign (assign m b) a.

End Populate.

Module PopulateFacts.



(** The constructors of the source, as the assignments their literals
    perform. *)
Lemma NewBindMsg_populate from symbol amount contractAddress contractDecimals expireTime :
  BindMsg.NewBindMsg from symbol amount contractAddress contractDecimals expireTime =
  BindMsg.populate [
    BindMsg.SetFrom from; BindMsg.SetAmount amount; BindMsg.SetSymbol symbol;
    BindMsg.SetContractAddress contractAddress;
    BindMsg.SetContractDecimals contractDecimals; BindMsg.SetExpireTime expireTime ].
Proof. reflexivity. Qed.

Lemma NewTransferOutMsg_populate from to amount expireTime :
  TransferOutMsg.NewTransferOutMsg from to amount expireTime =
  TransferOutMsg.populate [
    TransferOutMsg.SetFrom from; TransferOutMsg.SetTo to;
    TransferOutMsg.SetAmount amount; TransferOutMsg.SetExpireTime expireTime ].
Proof. reflexivity. Qed.

(** The sign bytes list the members in the order of the declaration,
    whatever the order of the literal. *)
Example GetSignBytes_sample :
  BindMsg.GetSignBytes Sample.encoders Sample.bind =
  Some (list_byte_of_string
    ("{" ++ JSON.member "from" (dquote ++ "0707070707070707070707070707070707070707" ++ dquote)
     ++ "," ++ JSON.member "symbol" (dquote ++ "BNB" ++ dquote)
     ++ "," ++ JSON.member "amount" "100000000"
     ++ "," ++ JSON.member "contract_address"
                 (dquote ++ "000000000000000000000000000000000000002a" ++ dquote)
     ++ "," ++ JSON.member "contract_decimals" "8"
     ++ "," ++ JSON.member "expire_time" "1597543193" ++ "}")%string).
Proof. vm_compute. reflexivity. Qed.
End PopulateFacts.

(** * The claims *)



(** C2, as it is worded: a short [b] padded with zero bytes whatever the
    receiver holds. It fails on a receiver that is not the zero address:
    [copy] writes the last byte only and the leading 19 bytes stay. *)
Lemma SetBytes_zero_padding_counterexample :
  ~ (forall (addr : SmartChainAddress.t) (b : list byte),
       SmartChainAddress.wf addr ->
       ((20 < length b)%nat ->
        SmartChainAddress.SetBytes addr b = Some (drop (length b - 20) b)) /\
       ((length b < 20)%nat ->
        SmartChainAddress.SetBytes addr b = Some (replicate (20 - length b) x00 ++ b))).
Proof.
  intros H.
  destruct (H Sample.ones [x02] eq_refl) as [_ Hshort].
  specialize (Hshort ltac:(simpl; lia)). vm_compute in Hshort. discriminate Hshort.
Qed.

(** C2, amended. For every byte sequence [b], SetBytes stores [b]
    right-aligned into the 20-byte address and never panics: when [b] has
    20 bytes or more the address is the trailing 20 bytes of [b] ([b]
    itself when it has exactly 20); when [b] is shorter than 20 bytes the
    address ends with [b] and its leading bytes are those the receiver
    held, so that on the zero address the result is [b] left-padded with
    zero bytes to length 20. *)
Theorem SetBytes_right_aligned (addr : SmartChainAddress.t) (b : list byte) :
  SmartChainAddress.wf addr ->
  exists addr' : SmartChainAddress.t,
    SmartChainAddress.SetBytes addr b = Some addr' /\
    SmartChainAddress.wf addr' /\
    ((20 <= length b)%nat -> addr' = drop (length b - 20) b) /\
    (length b = 20%nat -> addr' = b) /\
    ((length b < 20)%nat ->
     addr' = take (20 - length b) addr ++ b /\
     SmartChainAddress.SetBytes SmartChainAddress.zero b =
       Some (replicate (20 - length b) x00 ++ b)).
Proof.
  intros Hwf. rewrite SetBytesFacts.SetBytes_eq by done.
  eexists. split; [reflexivity |]. unfold SmartChainAddress.wf in *.
  split; [rewrite length_app, length_take, length_drop; lia |].
  split; [| split].
  - intros Hlong. by replace (20 - length b)%nat with 0%nat by lia.
  - intros Hfull. rewrite Hfull. by rewrite Nat.sub_diag, drop_0.
  - intros Hshort. replace (length b - 20)%nat with 0%nat by lia.
    rewrite drop_0. split; [reflexivity |].
    rewrite SetBytesFacts.SetBytes_zero.
    replace (length b - 20)%nat with 0%nat by lia. by rewrite drop_0.
Qed.

Lemma SetBytes_right_aligned_witness :
  SmartChainAddress.wf Sample.ones /\
  exists addr' : SmartChainAddress.t,
    SmartChainAddress.SetBytes Sample.ones [x02] = Some addr' /\
    SmartChainAddress.wf addr' /\
    ((20 <= length [x02])%nat -> addr' = drop (length [x02] - 20) [x02]) /\
    (length [x02] = 20%nat -> addr' = [x02]) /\
    ((length [x02] < 20)%nat ->
     addr' = take (20 - length [x02]) Sample.ones ++ [x02] /\
     SmartChainAddress.SetBytes SmartChainAddress.zero [x02] =
       Some (replicate (20 - length [x02]) x00 ++ [x02])).
Proof.
  split; [reflexivity |].
  apply (SetBytes_right_aligned Sample.ones [x02] eq_refl).
Defined.

(** C3. NewSmartChainAddress never fails: for every text it returns an
    address of 20 bytes, and for a text that the decoder rejects that
    address is the zero address. *)
Theorem NewSmartChainAddress_never_fails (text : string) :
  exists address : SmartChainAddress.t,
    NewSmartChainAddress text = Some address /\
    SmartChainAddress.wf address /\
    (snd (HexDecode text) <> None -> address = SmartChainAddress.zero).
Proof.
  unfold NewSmartChainAddress.
  destruct (HexDecode text) as [hexBytes err] eqn:Hdec.
  rewrite SetBytesFacts.SetBytes_zero. eexists. split; [reflexivity |]. split.
  - unfold SmartChainAddress.wf.
    rewrite length_app, length_replicate, length_drop. lia.
  - simpl. destruct err as [e |]; [intros _ | done].
    apply HexFacts.HexDecode_error in Hdec as ->. reflexivity.
Qed.

Lemma NewSmartChainAddress_never_fails_witness :
  snd (HexDecode "0x12zz") <> None /\
  NewSmartChainAddress "0x12zz" = Some SmartChainAddress.zero.
Proof.
  assert (Hbad : snd (HexDecode "0x12zz") <> None) by (vm_compute; discriminate).
  split; [exact Hbad |].
  destruct (NewSmartChainAddress_never_fails "0x12zz") as (address & Heq & _ & Hzero).
  rewrite Heq. f_equal. exact (Hzero Hbad).
Defined.

(** C7. IsEmpty returns true exactly when each of the 20 bytes of the
    address is zero. *)
Theorem IsEmpty_iff_all_zero (addr : SmartChainAddress.t) :
  SmartChainAddress.wf addr ->
  SmartChainAddress.IsEmpty addr = true <->
  (forall i : nat, (i < 20)%nat -> addr !! i = Some x00).
Proof.
  intros Hwf. rewrite IsEmptyFacts.IsEmpty_Forall, Forall_lookup.
  unfold SmartChainAddress.wf, SmartChainAddress.t in *. split.
  - intros H i Hi.
    destruct (lookup_lt_is_Some_2 addr i) as [b Hb]; [lia |].
    rewrite (H i b Hb) in Hb. exact Hb.
  - intros H i b Hb.
    assert (Hi : (i < 20)%nat) by (apply lookup_lt_Some in Hb; lia).
    pose proof (H i Hi) as Hz. congruence.
Qed.

Lemma IsEmpty_iff_all_zero_witness :
  SmartChainAddress.wf Sample.contract /\
  (SmartChainAddress.IsEmpty Sample.contract = true <->
   (forall i : nat, (i < 20)%nat -> Sample.contract !! i = Some x00)).
Proof.
  split; [reflexivity | exact (IsEmpty_iff_all_zero Sample.contract eq_refl)].
Defined.

(** C4. BindMsg.ValidateBasic returns an error exactly when the sender
    address has not the length [AddrLen], or the symbol is empty, or the
    amount is at most 0, or the contract address is the zero address, or
    the contract decimals are negative, or the expire time is at most 0;
    it returns nil exactly when none of these holds. *)
Theorem BindMsg_ValidateBasic_rejects_iff (AddrLen : Z) (msg : BindMsg.t) :
  SmartChainAddress.wf (BindMsg.ContractAddress msg) ->
  (BindMsg.ValidateBasic AddrLen msg <> None <->
     len (BindMsg.From msg) <> AddrLen \/
     BindMsg.Symbol msg = EmptyString \/
     BindMsg.Amount msg <= 0 \/
     BindMsg.ContractAddress msg = SmartChainAddress.zero \/
     BindMsg.ContractDecimals msg < 0 \/
     BindMsg.ExpireTime msg <= 0) /\
  (BindMsg.ValidateBasic AddrLen msg = None <->
     len (BindMsg.From msg) = AddrLen /\
     BindMsg.Symbol msg <> EmptyString /\
     0 < BindMsg.Amount msg /\
     BindMsg.ContractAddress msg <> SmartChainAddress.zero /\
     0 <= BindMsg.ContractDecimals msg /\
     0 < BindMsg.ExpireTime msg).
Proof.
  intros Hwf.
  pose proof (IsEmptyFacts.IsEmpty_zero _ Hwf) as Hempty.
  assert (Hsym : Z.of_nat (String.length (BindMsg.Symbol msg)) = 0 <->
                 BindMsg.Symbol msg = EmptyString).
  { destruct (BindMsg.Symbol msg); simpl; split; (done || lia). }
  unfold BindMsg.ValidateBasic.
  destruct (SmartChainAddress.IsEmpty (BindMsg.ContractAddress msg)) eqn:Hc.
  - pose proof (proj1 Hempty eq_refl) as Hz.
    repeat case_decide; rewrite ?Hsym in *;
      intuition (try discriminate; try congruence; try lia).
  - assert (BindMsg.ContractAddress msg <> SmartChainAddress.zero)
      by (intros Hz; apply Hempty in Hz; discriminate).
    repeat case_decide; rewrite ?Hsym in *;
      intuition (try discriminate; try congruence; try lia).
Qed.

Lemma BindMsg_ValidateBasic_rejects_iff_witness :
  SmartChainAddress.wf (BindMsg.ContractAddress Sample.bind) /\
  BindMsg.ValidateBasic 20 Sample.bind = None.
Proof.
  split; [reflexivity |].
  apply (proj2 (BindMsg_ValidateBasic_rejects_iff 20 Sample.bind eq_refl)).
  repeat split; simpl; (lia || discriminate).
Defined.

(** C5. TransferOutMsg.ValidateBasic returns an error exactly when the
    sender address has not the length [AddrLen], or the destination is the
    zero address, or the coin amount is not strictly positive, or the
    expire time is at most 0; it returns nil exactly when none of these
    holds. *)
Theorem TransferOutMsg_ValidateBasic_rejects_iff (AddrLen : Z) (msg : TransferOutMsg.t) :
  SmartChainAddress.wf (TransferOutMsg.To msg) ->
  (TransferOutMsg.ValidateBasic AddrLen msg <> None <->
     len (TransferOutMsg.From msg) <> AddrLen \/
     TransferOutMsg.To msg = SmartChainAddress.zero \/
     ~ 0 < Coin.Amount (TransferOutMsg.Amount msg) \/
     TransferOutMsg.ExpireTime msg <= 0) /\
  (TransferOutMsg.ValidateBasic AddrLen msg = None <->
     len (TransferOutMsg.From msg) = AddrLen /\
     TransferOutMsg.To msg <> SmartChainAddress.zero /\
     0 < Coin.Amount (TransferOutMsg.Amount msg) /\
     0 < TransferOutMsg.ExpireTime msg).
Proof.
  intros Hwf.
  pose proof (IsEmptyFacts.IsEmpty_zero _ Hwf) as Hempty.
  unfold TransferOutMsg.ValidateBasic, Coin.IsPositive.
  destruct (Z.ltb_spec 0 (Coin.Amount (TransferOutMsg.Amount msg))) as [Hpos | Hpos];
    destruct (SmartChainAddress.IsEmpty (TransferOutMsg.To msg)) eqn:Hto.
  1, 3: pose proof (proj1 Hempty eq_refl) as Hz;
    repeat case_decide; simpl;
    intuition (try discriminate; try congruence; try lia).
  all: assert (TransferOutMsg.To msg <> SmartChainAddress.zero)
      by (intros Hz; apply Hempty in Hz; discriminate);
    repeat case_decide; simpl;
    intuition (try discriminate; try congruence; try lia).
Qed.

Lemma TransferOutMsg_ValidateBasic_rejects_iff_witness :
  SmartChainAddress.wf (TransferOutMsg.To Sample.transferOut) /\
  TransferOutMsg.ValidateBasic 20 Sample.transferOut = None.
Proof.
  split; [reflexivity |].
  apply (proj2 (TransferOutMsg_ValidateBasic_rejects_iff 20 Sample.transferOut eq_refl)).
  repeat split; simpl; (lia || discriminate).
Defined.

(** C6. For every address of 20 bytes, decoding its textual form gives the
    address back, so that rendering the decoded address yields the very
    same text: ToHex(FromHex(ToHex(addr))) = ToHex(addr). *)
Theorem String_roundtrip (addr : SmartChainAddress.t) :
  SmartChainAddress.wf addr ->
  NewSmartChainAddress (SmartChainAddress.String addr) = Some addr /\
  SmartChainAddress.String <$> NewSmartChainAddress (SmartChainAddress.String addr) =
    Some (SmartChainAddress.String addr).
Proof.
  intros Hwf.
  assert (Hnew : NewSmartChainAddress (SmartChainAddress.String addr) = Some addr).
  { unfold NewSmartChainAddress, SmartChainAddress.String.
    rewrite HexFacts.HexDecode_HexAddress.
    apply SetBytesFacts.SetBytes_full; [apply SetBytesFacts.wf_zero | done]. }
  split; [exact Hnew | by rewrite Hnew].
Qed.

Lemma String_roundtrip_witness :
  SmartChainAddress.wf Sample.contract /\
  SmartChainAddress.String <$> NewSmartChainAddress (SmartChainAddress.String Sample.contract) =
    Some (SmartChainAddress.String Sample.contract).
Proof.
  split; [reflexivity |].
  apply (proj2 (String_roundtrip Sample.contract eq_refl)).
Defined.

Lemma list_byte_of_string_app (s1 s2 : string) :
  list_byte_of_string (s1 ++ s2) = list_byte_of_string s1 ++ list_byte_of_string s2.
Proof.
  induction s1 as [| c s1 IH]; [reflexivity |].
  change (byte_of_ascii c :: list_byte_of_string (s1 ++ s2) =
          byte_of_ascii c :: list_byte_of_string s1 ++ list_byte_of_string s2).
  by rewrite IH.
Qed.

(** C8. MarshalJSON never fails, and what it returns is the textual form of
    the address between two double quotes, that text being 40 lower-case
    hexadecimal digits. *)
Theorem MarshalJSON_quoted_hex (addr : SmartChainAddress.t) :
  SmartChainAddress.wf addr ->
  snd (SmartChainAddress.MarshalJSON addr) = None /\
  fst (SmartChainAddress.MarshalJSON addr) =
    list_byte_of_string dquote
      ++ list_byte_of_string (SmartChainAddress.String addr)
      ++ list_byte_of_string dquote /\
  String.length (SmartChainAddress.String addr) = 40%nat /\
  Forall Hex.lower_hex (list_ascii_of_string (SmartChainAddress.String addr)).
Proof.
  intros Hwf. unfold SmartChainAddress.MarshalJSON. cbn [fst snd].
  split; [reflexivity |]. split; [| split].
  - by rewrite !list_byte_of_string_app.
  - unfold SmartChainAddress.String, HexAddress.
    rewrite HexFacts.length_encode. unfold SmartChainAddress.wf in Hwf. lia.
  - apply HexFacts.encode_lower_hex.
Qed.

Lemma MarshalJSON_quoted_hex_witness :
  SmartChainAddress.wf Sample.contract /\
  SmartChainAddress.MarshalJSON Sample.contract =
    (list_byte_of_string
       (dquote ++ "000000000000000000000000000000000000002a" ++ dquote)%string, None).
Proof.
  split; [reflexivity |].
  destruct (MarshalJSON_quoted_hex Sample.contract eq_refl) as (Herr & Hbytes & _).
  destruct (SmartChainAddress.MarshalJSON Sample.contract) as [b err].
  simpl in Herr, Hbytes. rewrite Herr, Hbytes. reflexivity.
Defined.

(** C9, as it is worded. The struct holds three independent slices, and
    the file has neither a constructor nor a check that relates their
    lengths: [Sample.ragged] is a TransferInClaim with two refund
    addresses, one receiver and no amount. *)
Lemma TransferInClaim_lengths_counterexample :
  ~ (forall c : TransferInClaim.t,
       length (TransferInClaim.RefundAddresses c) =
         length (TransferInClaim.ReceiverAddresses c) /\
       length (TransferInClaim.ReceiverAddresses c) =
         length (TransferInClaim.Amounts c)).
Proof.
  intros H. destruct (H Sample.ragged) as [Hlen _]. discriminate Hlen.
Qed.

(** C9, amended. The type does not relate the lengths of the three
    sequences; for a TransferInClaim in which they have the same length,
    every index below that length designates one refund address, one
    receiver address and one amount, which together describe one
    transfer. *)
Theorem TransferInClaim_positional (c : TransferInClaim.t) (i : nat) :
  length (TransferInClaim.RefundAddresses c) = length (TransferInClaim.Amounts c) ->
  length (TransferInClaim.ReceiverAddresses c) = length (TransferInClaim.Amounts c) ->
  (i < length (TransferInClaim.Amounts c))%nat ->
  exists (refund : SmartChainAddress.t) (receiver : AccAddress) (amount : Z),
    TransferInClaim.RefundAddresses c !! i = Some refund /\
    TransferInClaim.ReceiverAddresses c !! i = Some receiver /\
    TransferInClaim.Amounts c !! i = Some amount.
Proof.
  intros Hrefund Hreceiver Hi.
  destruct (lookup_lt_is_Some_2 (TransferInClaim.RefundAddresses c) i) as [refund ?];
    [lia |].
  destruct (lookup_lt_is_Some_2 (TransferInClaim.ReceiverAddresses c) i) as [receiver ?];
    [lia |].
  destruct (lookup_lt_is_Some_2 (TransferInClaim.Amounts c) i) as [amount ?];
    [lia |].
  by exists refund, receiver, amount.
Qed.

Lemma TransferInClaim_positional_witness :
  exists (refund : SmartChainAddress.t) (receiver : AccAddress) (amount : Z),
    TransferInClaim.RefundAddresses Sample.batch !! 1%nat = Some refund /\
    TransferInClaim.ReceiverAddresses Sample.batch !! 1%nat = Some receiver /\
    TransferInClaim.Amounts Sample.batch !! 1%nat = Some amount.
Proof.
  apply (TransferInClaim_positional Sample.batch 1); [reflexivity | reflexivity |].
  simpl. lia.
Defined.

(** An input of fewer than two bytes has nothing between a first and a
    last byte: the slice expression of UnmarshalJSON panics. *)
Lemma UnmarshalJSON_short_input (addr : SmartChainAddress.t) (input : list byte) :
  len input < 2 -> SmartChainAddress.UnmarshalJSON addr input = None.
Proof.
  intros H. unfold SmartChainAddress.UnmarshalJSON.
  by rewrite slice_None_short.
Qed.




(** * Further properties of the address codec *)

Module AddressFacts.
Import SmartChainAddress.

Lemma slice_framed {A : Type} (first last : A) (content : list A) :
  slice (first :: content ++ [last]) 1 (len (first :: content ++ [last]) - 1) =
  Some content.
Proof.
  unfold slice, len. rewrite length_cons, length_app. simpl length.
  rewrite decide_True by lia. f_equal. simpl drop. rewrite drop_0.
  replace (Z.to_nat _) with (length content) by lia.
  by rewrite take_app_length.
Qed.
End AddressFacts.

(** X1. SetBytes keeps the array at 20 bytes and never panics, whatever
    the length of [b]: neither [b[len(b)-20:]] nor [addr[20-len(b):]] is
    ever out of range. *)
Theorem SetBytes_keeps_length (addr : SmartChainAddress.t) (b : list byte) :
  SmartChainAddress.wf addr ->
  exists addr' : SmartChainAddress.t,
    SmartChainAddress.SetBytes addr b = Some addr' /\ SmartChainAddress.wf addr'.
Proof.
  intros Hwf. rewrite SetBytesFacts.SetBytes_eq by done.
  eexists. split; [reflexivity |].
  unfold SmartChainAddress.wf in *.
  rewrite length_app, length_take, length_drop. lia.
Qed.

Lemma SetBytes_keeps_length_witness :
  SmartChainAddress.wf Sample.ones /\
  exists addr' : SmartChainAddress.t,
    SmartChainAddress.SetBytes Sample.ones (replicate 33 x05) = Some addr' /\
    SmartChainAddress.wf addr'.
Proof.
  split; [reflexivity |].
  apply (SetBytes_keeps_length Sample.ones (replicate 33 x05) eq_refl).
Defined.

(** X2. A second SetBytes overrides a first one whenever it brings at
    least as many bytes, or at least 20: the array then is what the second
    call alone would have left. In particular SetBytes is idempotent. *)
Theorem SetBytes_override (addr : SmartChainAddress.t) (b1 b2 : list byte) :
  SmartChainAddress.wf addr ->
  (length b1 <= length b2)%nat \/ (20 <= length b2)%nat ->
  SmartChainAddress.SetBytes addr b1 ≫= (fun addr1 => SmartChainAddress.SetBytes addr1 b2) =
  SmartChainAddress.SetBytes addr b2.
Proof.
  intros Hwf Hlen.
  destruct (SetBytes_keeps_length addr b1 Hwf) as (addr1 & H1 & Hwf1).
  rewrite H1. cbn [mbind option_bind].
  rewrite SetBytesFacts.SetBytes_eq in H1 by done. injection H1 as <-.
  rewrite !SetBytesFacts.SetBytes_eq by done. do 2 f_equal.
  unfold SmartChainAddress.wf in Hwf.
  destruct (decide (20 <= length b2)%nat) as [Hfull | Hshort].
  - by replace (20 - length b2)%nat with 0%nat by lia.
  - rewrite take_app_le by (rewrite length_take; lia).
    rewrite take_take. f_equal. lia.
Qed.

Lemma SetBytes_override_witness :
  SmartChainAddress.wf Sample.ones /\
  ((length [x09] <= length [x02; x03])%nat \/ (20 <= length [x02; x03])%nat) /\
  SmartChainAddress.SetBytes Sample.ones [x09] ≫=
    (fun addr1 => SmartChainAddress.SetBytes addr1 [x02; x03]) =
  SmartChainAddress.SetBytes Sample.ones [x02; x03].
Proof.
  split; [reflexivity |]. split; [left; simpl; lia |].
  apply (SetBytes_override Sample.ones [x09] [x02; x03] eq_refl).
  left. simpl. lia.
Defined.

(** X3. After SetBytes the address is empty exactly when the bytes kept of
    the receiver and the bytes taken from [b] are all zero; [b] may be
    longer than 20 bytes and need not be zero before its last 20 bytes. *)
Theorem IsEmpty_after_SetBytes (addr addr' : SmartChainAddress.t) (b : list byte) :
  SmartChainAddress.wf addr ->
  SmartChainAddress.SetBytes addr b = Some addr' ->
  SmartChainAddress.IsEmpty addr' = true <->
  Forall (fun x => x = x00) (take (20 - length b) addr) /\
  Forall (fun x => x = x00) (drop (length b - 20) b).
Proof.
  intros Hwf. rewrite SetBytesFacts.SetBytes_eq by done. intros [= <-].
  by rewrite IsEmptyFacts.IsEmpty_Forall, Forall_app.
Qed.

Lemma IsEmpty_after_SetBytes_witness :
  SmartChainAddress.wf SmartChainAddress.zero /\
  SmartChainAddress.SetBytes SmartChainAddress.zero (x07 :: replicate 20 x00) =
    Some SmartChainAddress.zero /\
  SmartChainAddress.IsEmpty SmartChainAddress.zero = true.
Proof.
  assert (Hset : SmartChainAddress.SetBytes SmartChainAddress.zero (x07 :: replicate 20 x00) =
                 Some SmartChainAddress.zero) by (vm_compute; reflexivity).
  split; [reflexivity |]. split; [exact Hset |].
  apply (IsEmpty_after_SetBytes SmartChainAddress.zero SmartChainAddress.zero
           (x07 :: replicate 20 x00) eq_refl Hset).
  split; simpl; repeat constructor.
Defined.


(** X5. UnmarshalJSON panics exactly on the inputs of fewer than two
    bytes, for which [input[1 : len(input)-1]] is out of range; on every
    longer input it returns, with nil or with an error. *)
Theorem UnmarshalJSON_panics_iff (addr : SmartChainAddress.t) (input : list byte) :
  SmartChainAddress.wf addr ->
  SmartChainAddress.UnmarshalJSON addr input = None <-> len input < 2.
Proof.
  intros Hwf. split; [| apply UnmarshalJSON_short_input].
  intros Hpanic. destruct (decide (len input < 2)) as [| Hlong]; [done | exfalso].
  unfold SmartChainAddress.UnmarshalJSON in Hpanic.
  rewrite slice_Some_long in Hpanic by lia. cbn [mbind option_bind] in Hpanic.
  destruct (HexDecode _) as [hexBytes [e |]]; [discriminate Hpanic |].
  rewrite SetBytesFacts.SetBytes_eq in Hpanic by done. discriminate Hpanic.
Qed.

Lemma UnmarshalJSON_panics_iff_witness :
  SmartChainAddress.wf Sample.ones /\
  SmartChainAddress.UnmarshalJSON Sample.ones [x31] = None.
Proof.
  split; [reflexivity |].
  apply (UnmarshalJSON_panics_iff Sample.ones [x31] eq_refl).
  unfold len. simpl. lia.
Defined.

(** X6. UnmarshalJSON never looks at the first and at the last byte of its
    input: it does not check that they are double quotes, and two inputs
    with the same bytes in between leave the same address and return the
    same error. *)
Theorem UnmarshalJSON_ignores_delimiters
    (addr : SmartChainAddress.t) (content : list byte) (first last first' last' : byte) :
  SmartChainAddress.UnmarshalJSON addr (first :: content ++ [last]) =
  SmartChainAddress.UnmarshalJSON addr (first' :: content ++ [last']).
Proof.
  unfold SmartChainAddress.UnmarshalJSON.
  by rewrite !AddressFacts.slice_framed.
Qed.

(** X7. Decoding the JSON form of a text into a zero address and building
    the address from the text with NewSmartChainAddress agree whenever the
    decoder accepts the text: both give the same address, and
    UnmarshalJSON returns nil. *)
Theorem UnmarshalJSON_zero_agrees_with_New (text : string) (first last : byte) :
  snd (HexDecode text) = None ->
  SmartChainAddress.UnmarshalJSON SmartChainAddress.zero
    (first :: list_byte_of_string text ++ [last]) =
  address ← NewSmartChainAddress text; Some (address, None).
Proof.
  intros Hok. unfold SmartChainAddress.UnmarshalJSON, NewSmartChainAddress.
  rewrite AddressFacts.slice_framed. cbn [mbind option_bind].
  rewrite string_of_list_byte_of_string.
  destruct (HexDecode text) as [hexBytes err]. simpl in Hok. subst err.
  reflexivity.
Qed.

Lemma UnmarshalJSON_zero_agrees_with_New_witness :
  snd (HexDecode "0x0102") = None /\
  SmartChainAddress.UnmarshalJSON SmartChainAddress.zero
    (x22 :: list_byte_of_string "0x0102" ++ [x22]) =
  address ← NewSmartChainAddress "0x0102"; Some (address, None).
Proof.
  split; [reflexivity |].
  apply (UnmarshalJSON_zero_agrees_with_New "0x0102" x22 x22). reflexivity.
Defined.

(** X8. MarshalJSON and UnmarshalJSON are inverse on addresses: the bytes
    between the quotes that MarshalJSON writes are the text of String(),
    and unmarshalling them into any address [receiver] returns nil and
    leaves the marshalled address. The decoding step is that of the
    hexadecimal codec as modelled above. *)
Theorem UnmarshalJSON_MarshalJSON (receiver addr : SmartChainAddress.t) :
  SmartChainAddress.wf receiver ->
  SmartChainAddress.wf addr ->
  let input := fst (SmartChainAddress.MarshalJSON addr) in
  slice input 1 (len input - 1) = Some (list_byte_of_string (SmartChainAddress.String addr)) /\
  SmartChainAddress.UnmarshalJSON receiver input = Some (addr, None).
Proof.
  intros Hrecv Hwf input.
  assert (Hinput : input =
    x22 :: list_byte_of_string (SmartChainAddress.String addr) ++ [x22]).
  { subst input. unfold SmartChainAddress.MarshalJSON. cbn [fst].
    by rewrite !list_byte_of_string_app. }
  rewrite Hinput, AddressFacts.slice_framed. split; [reflexivity |].
  unfold SmartChainAddress.UnmarshalJSON.
  rewrite AddressFacts.slice_framed. cbn [mbind option_bind].
  rewrite string_of_list_byte_of_string. unfold SmartChainAddress.String.
  rewrite HexFacts.HexDecode_HexAddress.
  by rewrite SetBytesFacts.SetBytes_full.
Qed.

Lemma UnmarshalJSON_MarshalJSON_witness :
  SmartChainAddress.wf Sample.ones /\
  SmartChainAddress.wf Sample.contract /\
  SmartChainAddress.UnmarshalJSON Sample.ones
    (fst (SmartChainAddress.MarshalJSON Sample.contract)) = Some (Sample.contract, None).
Proof.
  split; [reflexivity |]. split; [reflexivity |].
  apply (proj2 (UnmarshalJSON_MarshalJSON Sample.ones Sample.contract eq_refl eq_refl)).
Defined.

(** * Further properties of the messages *)

(** X9. BindMsg.ValidateBasic reports the first check that fails, in the
    order of the source: the error is decided by the sender length alone
    when it is wrong, by the symbol when the length is right, and so on
    down to the expire time. *)
Theorem BindMsg_ValidateBasic_first_failure (AddrLen : Z) (msg : BindMsg.t) :
  SmartChainAddress.wf (BindMsg.ContractAddress msg) ->
  (len (BindMsg.From msg) <> AddrLen ->
   BindMsg.ValidateBasic AddrLen msg =
     Some (Errorf ("address length should be " ++ fmt_d AddrLen))) /\
  (len (BindMsg.From msg) = AddrLen ->
   (BindMsg.Symbol msg = EmptyString ->
    BindMsg.ValidateBasic AddrLen msg = Some (Errorf "symbol should not be empty")) /\
   (BindMsg.Symbol msg <> EmptyString ->
    (BindMsg.Amount msg <= 0 ->
     BindMsg.ValidateBasic AddrLen msg = Some (Errorf "amount should be larger than 0")) /\
    (0 < BindMsg.Amount msg ->
     (BindMsg.ContractAddress msg = SmartChainAddress.zero ->
      BindMsg.ValidateBasic AddrLen msg =
        Some (Errorf "contract address should not be empty")) /\
     (BindMsg.ContractAddress msg <> SmartChainAddress.zero ->
      (BindMsg.ContractDecimals msg < 0 ->
       BindMsg.ValidateBasic AddrLen msg =
         Some (Errorf "decimal should be no less than 0")) /\
      (0 <= BindMsg.ContractDecimals msg ->
       BindMsg.ExpireTime msg <= 0 ->
       BindMsg.ValidateBasic AddrLen msg =
         Some (Errorf "expire time should be larger than 0")))))).
Proof.
  intros Hwf.
  pose proof (IsEmptyFacts.IsEmpty_zero _ Hwf) as Hempty.
  assert (Hsym : Z.of_nat (String.length (BindMsg.Symbol msg)) = 0 <->
                 BindMsg.Symbol msg = EmptyString).
  { destruct (BindMsg.Symbol msg); simpl; split; (done || lia). }
  unfold BindMsg.ValidateBasic.
  split; [intros Hlen; by rewrite decide_True |].
  intros Hlen. rewrite (decide_False (P := len (BindMsg.From msg) <> AddrLen)) by tauto.
  split; [intros Hs; rewrite decide_True; [done | by apply Hsym] |].
  intros Hs. rewrite (decide_False (P := Z.of_nat _ = 0)) by (by rewrite Hsym).
  split; [intros Ha; by rewrite decide_True |].
  intros Ha. rewrite (decide_False (P := BindMsg.Amount msg <= 0)) by lia.
  split; [intros Hc; apply Hempty in Hc; by rewrite Hc |].
  intros Hc.
  destruct (SmartChainAddress.IsEmpty (BindMsg.ContractAddress msg)) eqn:Hc';
    [exfalso; apply Hc; by apply Hempty |].
  split; [intros Hd; by rewrite decide_True |].
  intros Hd He. rewrite (decide_False (P := BindMsg.ContractDecimals msg < 0)) by lia.
  by rewrite decide_True.
Qed.

Lemma BindMsg_ValidateBasic_first_failure_witness :
  SmartChainAddress.wf (BindMsg.ContractAddress BindMsg.zero) /\
  len (BindMsg.From BindMsg.zero) <> 20 /\
  BindMsg.ValidateBasic 20 BindMsg.zero = Some (Errorf "address length should be 20").
Proof.
  assert (Hlen : len (BindMsg.From BindMsg.zero) <> 20) by (vm_compute; discriminate).
  split; [reflexivity |]. split; [exact Hlen |].
  apply (proj1 (BindMsg_ValidateBasic_first_failure 20 BindMsg.zero eq_refl) Hlen).
Defined.

(** X10. TransferOutMsg.ValidateBasic reports the first check that fails,
    in the order of the source: sender length, destination, amount, expire
    time. *)
Theorem TransferOutMsg_ValidateBasic_first_failure (AddrLen : Z) (msg : TransferOutMsg.t) :
  SmartChainAddress.wf (TransferOutMsg.To msg) ->
  (len (TransferOutMsg.From msg) <> AddrLen ->
   TransferOutMsg.ValidateBasic AddrLen msg =
     Some (Errorf ("address length should be " ++ fmt_d AddrLen))) /\
  (len (TransferOutMsg.From msg) = AddrLen ->
   (TransferOutMsg.To msg = SmartChainAddress.zero ->
    TransferOutMsg.ValidateBasic AddrLen msg = Some (Errorf "to address should not be empty")) /\
   (TransferOutMsg.To msg <> SmartChainAddress.zero ->
    (Coin.IsPositive (TransferOutMsg.Amount msg) = false ->
     TransferOutMsg.ValidateBasic AddrLen msg = Some (Errorf "amount should be positive")) /\
    (Coin.IsPositive (TransferOutMsg.Amount msg) = true ->
     TransferOutMsg.ExpireTime msg <= 0 ->
     TransferOutMsg.ValidateBasic AddrLen msg =
       Some (Errorf "expire time should be larger than 0")))).
Proof.
  intros Hwf.
  pose proof (IsEmptyFacts.IsEmpty_zero _ Hwf) as Hempty.
  unfold TransferOutMsg.ValidateBasic.
  split; [intros Hlen; by rewrite decide_True |].
  intros Hlen. rewrite (decide_False (P := len (TransferOutMsg.From msg) <> AddrLen)) by tauto.
  split; [intros Hc; apply Hempty in Hc; by rewrite Hc |].
  intros Hc.
  destruct (SmartChainAddress.IsEmpty (TransferOutMsg.To msg)) eqn:Hc';
    [exfalso; apply Hc; by apply Hempty |].
  split; [intros Hp; by rewrite Hp |].
  intros Hp He. rewrite Hp. simpl. by rewrite decide_True.
Qed.

Lemma TransferOutMsg_ValidateBasic_first_failure_witness :
  SmartChainAddress.wf (TransferOutMsg.To TransferOutMsg.zero) /\
  len (TransferOutMsg.From TransferOutMsg.zero) <> 20 /\
  TransferOutMsg.ValidateBasic 20 TransferOutMsg.zero =
    Some (Errorf "address length should be 20").
Proof.
  assert (Hlen : len (TransferOutMsg.From TransferOutMsg.zero) <> 20)
    by (vm_compute; discriminate).
  split; [reflexivity |]. split; [exact Hlen |].
  apply (proj1 (TransferOutMsg_ValidateBasic_first_failure 20 TransferOutMsg.zero eq_refl) Hlen).
Defined.

(** X11. GetSignBytes panics only through the encoders of package sdk:
    for a BindMsg exactly when the encoder of the sender address reports an
    error, for a TransferOutMsg exactly when the encoder of the sender
    address or that of the coin does. The smart-chain address of either
    message never makes it panic, its MarshalJSON returning a nil error
    always. *)
Theorem GetSignBytes_panics_iff (enc : JSONEncoders) :
  (forall msg : BindMsg.t,
      BindMsg.GetSignBytes enc msg = None <->
      json_AccAddress enc (BindMsg.From msg) = None) /\
  (forall msg : TransferOutMsg.t,
      TransferOutMsg.GetSignBytes enc msg = None <->
      json_AccAddress enc (TransferOutMsg.From msg) = None \/
      json_Coin enc (TransferOutMsg.Amount msg) = None).
Proof.
  split; intros msg.
  - unfold BindMsg.GetSignBytes, BindMsg.json_Marshal.
    destruct (json_AccAddress enc (BindMsg.From msg)) as [from |]; simpl; split;
      (done || discriminate).
  - unfold TransferOutMsg.GetSignBytes, TransferOutMsg.json_Marshal.
    destruct (json_AccAddress enc (TransferOutMsg.From msg)) as [from |]; simpl;
      [| split; [by left | done]].
    destruct (json_Coin enc (TransferOutMsg.Amount msg)) as [amount |]; simpl; split;
      try done; try discriminate; [intros [|]; discriminate | by right].
Qed.

(** ** Texts and decimal numbers *)

Module TextFacts.

Lemma append_cancel_l (p a b : string) : (p ++ a)%string = (p ++ b)%string -> a = b.
Proof.
  induction p as [| c p IH]; simpl; [done |]. intros [= H]. by apply IH.
Qed.

(** Two texts that do not contain [c] and are each followed by [c] are the
    same text when the whole strings are the same. *)
Lemma append_separator_inv (c : ascii) (a b r1 r2 : string) :
  ~ In c (list_ascii_of_string a) ->
  ~ In c (list_ascii_of_string b) ->
  (a ++ String c r1)%string = (b ++ String c r2)%string ->
  a = b /\ r1 = r2.
Proof.
  revert b. induction a as [| x a IH]; intros [| y b] Ha Hb; simpl in *.
  - by intros [= ->].
  - intros [= -> _]. tauto.
  - intros [= -> _]. tauto.
  - intros [= -> H]. destruct (IH b) as [-> ->]; tauto.
Qed.

Lemma append_assoc (a b c : string) : ((a ++ b) ++ c)%string = (a ++ (b ++ c))%string.
Proof. induction a as [| x a IH]; simpl; [done | by rewrite IH]. Qed.

Lemma list_byte_of_string_inj (s1 s2 : string) :
  list_byte_of_string s1 = list_byte_of_string s2 -> s1 = s2.
Proof.
  intros H. apply (f_equal string_of_list_byte) in H.
  by rewrite !string_of_list_byte_of_string in H.
Qed.

Lemma uint_digits (d : Decimal.uint) (c : ascii) :
  In c (list_ascii_of_string (NilEmpty.string_of_uint d)) ->
  In c (list_ascii_of_string "-0123456789").
Proof.
  induction d as [| d IH | d IH | d IH | d IH | d IH | d IH | d IH | d IH | d IH | d IH];
    simpl; [done | ..]; (intros [<- | H]; [tauto | by apply IH]).
Qed.

Lemma nz_uint_digits (d : Decimal.uint) (c : ascii) :
  In c (list_ascii_of_string (NilZero.string_of_uint d)) ->
  In c (list_ascii_of_string "-0123456789").
Proof. destruct d; [simpl; tauto | exact (uint_digits _ c) ..]. Qed.

(** [%d] writes a sign and decimal digits, nothing else. *)
Lemma fmt_d_chars (z : Z) (c : ascii) :
  In c (list_ascii_of_string (fmt_d z)) ->
  In c (list_ascii_of_string "-0123456789").
Proof.
  destruct z as [| p | p].
  - simpl. tauto.
  - exact (nz_uint_digits (Pos.to_uint p) c).
  - change (In c (list_ascii_of_string
                    (String "-" (NilZero.string_of_uint (Pos.to_uint p)))) ->
            In c (list_ascii_of_string "-0123456789")).
    intros [<- | H]; [simpl; tauto | by apply nz_uint_digits in H].
Qed.

Lemma fmt_d_no_comma (z : Z) : ~ In ","%char (list_ascii_of_string (fmt_d z)).
Proof.
  intros H. apply fmt_d_chars in H. simpl in H.
  repeat (destruct H as [H | H]; [discriminate H |]). done.
Qed.

Lemma fmt_d_no_brace (z : Z) : ~ In "}"%char (list_ascii_of_string (fmt_d z)).
Proof.
  intros H. apply fmt_d_chars in H. simpl in H.
  repeat (destruct H as [H | H]; [discriminate H |]). done.
Qed.

(** Different integers have different decimal forms. *)
Lemma fmt_d_inj (z1 z2 : Z) : fmt_d z1 = fmt_d z2 -> z1 = z2.
Proof.
  unfold fmt_d. intros H. apply DecimalZ.to_int_inj.
  assert (Hnorm : forall z, NilZero.int_of_string (NilZero.string_of_int (Z.to_int z)) =
                            Some (Z.to_int z)).
  { intros z. apply NilZero.isi; destruct z as [| p | p]; simpl; try discriminate;
      intros [= Hnil]; by apply (DecimalPos.Unsigned.to_uint_nonnil p). }
  apply (f_equal NilZero.int_of_string) in H. rewrite !Hnorm in H. by injection H.
Qed.
End TextFacts.

(** X12. The sign bytes of a BindMsg bind its three integers: two
    messages with the same sender, symbol and contract address whose
    GetSignBytes return the same bytes have the same amount, the same
    contract decimals and the same expire time, hence are the same
    message. *)
Theorem BindMsg_GetSignBytes_binds_integers
    (enc : JSONEncoders) (m1 m2 : BindMsg.t) (b : list byte) :
  BindMsg.From m1 = BindMsg.From m2 ->
  BindMsg.Symbol m1 = BindMsg.Symbol m2 ->
  BindMsg.ContractAddress m1 = BindMsg.ContractAddress m2 ->
  BindMsg.GetSignBytes enc m1 = Some b ->
  BindMsg.GetSignBytes enc m2 = Some b ->
  m1 = m2.
Proof.
  destruct m1 as [from1 symbol1 amount1 contract1 decimals1 expire1].
  destruct m2 as [from2 symbol2 amount2 contract2 decimals2 expire2].
  simpl. intros <- <- <-.
  unfold BindMsg.GetSignBytes, BindMsg.json_Marshal. simpl.
  destruct (json_AccAddress enc from1) as [from |]; [| discriminate].
  cbn [mbind option_bind JSON.marshaler SmartChainAddress.MarshalJSON].
  intros [= <-] [= H]. apply TextFacts.list_byte_of_string_inj in H.
  rewrite ?string_of_list_byte_of_string in H.
  unfold JSON.object, JSON.join, JSON.member, JSON.int, dquote in H.
  repeat (rewrite ?TextFacts.append_assoc in H; cbn [append] in H).
  apply TextFacts.append_cancel_l in H. repeat injection H as H.
  apply TextFacts.append_cancel_l in H. repeat injection H as H.
  apply TextFacts.append_separator_inv in H as [Hamount H];
    [| apply TextFacts.fmt_d_no_comma ..].
  repeat injection H as H.
  apply TextFacts.append_cancel_l in H. repeat injection H as H.
  apply TextFacts.append_separator_inv in H as [Hdecimals H];
    [| apply TextFacts.fmt_d_no_comma ..].
  repeat injection H as H.
  apply TextFacts.append_separator_inv in H as [Hexpire _];
    [| apply TextFacts.fmt_d_no_brace ..].
  apply TextFacts.fmt_d_inj in Hamount, Hdecimals, Hexpire. by subst.
Qed.

Lemma BindMsg_GetSignBytes_binds_integers_witness :
  exists b : list byte,
    BindMsg.GetSignBytes Sample.encoders Sample.bind = Some b /\
    BindMsg.GetSignBytes Sample.encoders
      (BindMsg.assign Sample.bind (BindMsg.SetAmount 100000000)) = Some b /\
    Sample.bind = BindMsg.assign Sample.bind (BindMsg.SetAmount 100000000).
Proof.
  eexists. split; [vm_compute; reflexivity |]. split; [vm_compute; reflexivity |].
  eapply (BindMsg_GetSignBytes_binds_integers Sample.encoders Sample.bind
            (BindMsg.assign Sample.bind (BindMsg.SetAmount 100000000)));
    [reflexivity | reflexivity | reflexivity | vm_compute; reflexivity
    | vm_compute; reflexivity].
Defined.

(** X13. The sign bytes of a TransferOutMsg bind its expire time: two
    messages with the same sender, destination and coin whose GetSignBytes
    return the same bytes have the same expire time, hence are the same
    message. *)
Theorem TransferOutMsg_GetSignBytes_binds_expire_time
    (enc : JSONEncoders) (m1 m2 : TransferOutMsg.t) (b : list byte) :
  TransferOutMsg.From m1 = TransferOutMsg.From m2 ->
  TransferOutMsg.To m1 = TransferOutMsg.To m2 ->
  TransferOutMsg.Amount m1 = TransferOutMsg.Amount m2 ->
  TransferOutMsg.GetSignBytes enc m1 = Some b ->
  TransferOutMsg.GetSignBytes enc m2 = Some b ->
  m1 = m2.
Proof.
  destruct m1 as [from1 to1 coin1 expire1].
  destruct m2 as [from2 to2 coin2 expire2].
  simpl. intros <- <- <-.
  unfold TransferOutMsg.GetSignBytes, TransferOutMsg.json_Marshal. simpl.
  destruct (json_AccAddress enc from1) as [from |]; [| discriminate].
  cbn [mbind option_bind JSON.marshaler SmartChainAddress.MarshalJSON].
  destruct (json_Coin enc coin1) as [coin |]; [| discriminate].
  cbn [mbind option_bind].
  intros [= <-] [= H]. apply TextFacts.list_byte_of_string_inj in H.
  rewrite ?string_of_list_byte_of_string in H.
  unfold JSON.object, JSON.join, JSON.member, JSON.int, dquote in H.
  repeat (rewrite ?TextFacts.append_assoc in H; cbn [append] in H).
  apply TextFacts.append_cancel_l in H. repeat injection H as H.
  apply TextFacts.append_cancel_l in H. repeat injection H as H.
  apply TextFacts.append_cancel_l in H. repeat injection H as H.
  apply TextFacts.append_separator_inv in H as [Hexpire _];
    [| apply TextFacts.fmt_d_no_brace ..].
  apply TextFacts.fmt_d_inj in Hexpire. by subst.
Qed.

Lemma TransferOutMsg_GetSignBytes_binds_expire_time_witness :
  exists b : list byte,
    TransferOutMsg.GetSignBytes Sample.encoders Sample.transferOut = Some b /\
    TransferOutMsg.GetSignBytes Sample.encoders
      (TransferOutMsg.assign Sample.transferOut (TransferOutMsg.SetExpireTime 1597543193)) =
      Some b /\
    Sample.transferOut =
      TransferOutMsg.assign Sample.transferOut (TransferOutMsg.SetExpireTime 1597543193).
Proof.
  eexists. split; [vm_compute; reflexivity |]. split; [vm_compute; reflexivity |].
  eapply (TransferOutMsg_GetSignBytes_binds_expire_time Sample.encoders Sample.transferOut
            (TransferOutMsg.assign Sample.transferOut (TransferOutMsg.SetExpireTime 1597543193)));
    [reflexivity | reflexivity | reflexivity | vm_compute; reflexivity
    | vm_compute; reflexivity].
Defined.
